(** * A shallow embedding of the AI client ([createAI] and its [generate])

    The client is a closure over a configuration (provider factories and
    model aliases) and a provider cache.  Its code is effectful: it reads and
    writes the cache, calls foreign code (the provider factories, the SDK's
    [generateText], [console.log]), reads the wall clock and may throw.  The
    embedding threads an explicit [State] through a small state-and-exception
    monad [JS]; foreign code is a parameter ([Foreign], and the factories of
    the configuration). *)

From Stdlib Require Import PrimFloat ZArith Lia.
From stdpp Require Import gmap strings list.

(** ** JavaScript values the code handles *)

(** An [Error] object, as far as callers can tell them apart: the class
    name ([err.name]) and the message. *)
Record JsError := mkError { name : string; message : string }.

(** The error the runtime raises when a property of [undefined] is read or
    when something that is not a function is called.  The class is fixed by
    the language; the wording of the message is the engine's (V8's here). *)
Definition TypeError (msg : string) : JsError :=
  {| name := "TypeError"; message := msg |}.

(** How an evaluation ends: normally with a value, or by a [throw] (for an
    [async] function: a fulfilled or a rejected promise). *)
Inductive Completion (A : Type) : Type :=
| Normal (a : A)
| Throw (e : JsError).
Arguments Normal {A} a.
Arguments Throw {A} e.

Definition is_Normal {A : Type} (c : Completion A) : bool :=
  match c with
  | Normal _ => true
  | Throw _ => false
  end.

(** What awaiting a call into foreign asynchronous code yields: how far the
    wall clock ([Date.now()], in milliseconds) moved while the caller was
    suspended, and how the promise settled.  [Date.now()] is the system
    clock, which can be set back: [elapsed] is an integer of either sign. *)
Record Settled (A : Type) : Type := mkSettled {
  elapsed : Z;
  settle : Completion A;
}.
Arguments mkSettled {A} elapsed settle.
Arguments elapsed {A} s.
Arguments settle {A} s.

(** JavaScript truthiness of an optional string ([params.logKey]):
    [undefined] and the empty string are falsy. *)
Definition truthy_string (o : option string) : bool :=
  match o with
  | Some s => negb (String.eqb s "")
  | None => false
  end.

(** Truthiness of an optional object ([modelConfig.costs], [params.output],
    a cached provider): objects and functions are truthy, [undefined] is
    falsy. *)
Definition truthy_object {A : Type} (o : option A) : bool :=
  match o with
  | Some _ => true
  | None => false
  end.

(** ** types.ts *)

Module Costs.
(** [costs?: { input: number; output: number }], USD per 1M tokens. *)
Record t := mk { input : float; output : float }.
End Costs.

Record ModelEntry := mkModelEntry {
  provider : string;
  id : string;
  costs : option Costs.t;
}.

(** The three optional cost fields of [GenerateMetadata]
    ([Pick<GenerateMetadata, "inputCostUsd" | "outputCostUsd" | "totalCostUsd">]);
    [None] is [undefined]. *)
Record CostFields := mkCostFields {
  inputCostUsd : option float;
  outputCostUsd : option float;
  totalCostUsd : option float;
}.

(** [GenerateMetadata]; [costFields] holds the fields spread in by
    [...costs]. *)
Record GenerateMetadata := mkMetadata {
  responseTimeMs : Z;
  inputTokens : float;
  outputTokens : float;
  costFields : CostFields;
}.

(** The part of the SDK (package [ai]) the client uses. *)
Module ai.
Record Usage := mkUsage {
  inputTokens : option float;
  outputTokens : option float;
}.

(** The argument of [generateText], with the fields the client sets. *)
Record GenerateTextParams (LanguageModel Output : Type) := mkParams {
  model : LanguageModel;
  prompt : string;
  system : option string;
  temperature : option float;
  maxOutputTokens : option float;
  experimental_output : option Output;
}.
Arguments mkParams {LanguageModel Output}.
Arguments model {LanguageModel Output}.
Arguments prompt {LanguageModel Output}.
Arguments system {LanguageModel Output}.
Arguments temperature {LanguageModel Output}.
Arguments maxOutputTokens {LanguageModel Output}.
Arguments experimental_output {LanguageModel Output}.

(** The fields of [generateText]'s result the client reads;
    [output] is [result.experimental_output]. *)
Record GenerateTextResult (Parsed : Type) := mkResult {
  text : string;
  output : Parsed;
  usage : option Usage;
}.
Arguments mkResult {Parsed}.
Arguments text {Parsed}.
Arguments output {Parsed}.
Arguments usage {Parsed}.
End ai.

Section Client.
(** Opaque types of the SDK: a model handle, an output schema
    ([Output.Output]) and the structured value parsed against it. *)
Context {LanguageModel Output Parsed : Type}.

(** [LanguageModelProvider = (modelId: string) => LanguageModel]: foreign
    code again; a call returns a model handle or throws. *)
Definition LanguageModelProvider : Type := string → Completion LanguageModel.

(** [ProviderFactory]: foreign code, sync or async, that may fail and may
    behave differently from one invocation to the next.  [factory n] is
    what its invocation number [n] (from 0) yields once awaited. *)
Definition ProviderFactory : Type := nat → Settled LanguageModelProvider.

(** The configuration: the own properties of [config.providers] and of
    [config.models].  A lookup that finds no own property is [undefined]
    in the embedding.  A JavaScript object also answers for the names it
    inherits from [Object.prototype] ([Object_prototype_names] below, such as
    [constructor] or [toString]); lookups of a missing key of that kind are
    not covered, and the statements about a missing provider key say so. *)
Record Config := mkConfig {
  providers : gmap string ProviderFactory;
  models : gmap string ModelEntry;
}.

(** The property names every ordinary object inherits from
    [Object.prototype].  For these [config.providers[key]] and
    [config.models[key]] are not [undefined] even when the configuration
    has no such key. *)
Definition Object_prototype_names : list string :=
  ["constructor"; "hasOwnProperty"; "isPrototypeOf"; "propertyIsEnumerable";
   "toLocaleString"; "toString"; "valueOf"; "__proto__";
   "__defineGetter__"; "__defineSetter__"; "__lookupGetter__";
   "__lookupSetter__"].

Definition inherited_from_Object_prototype (key : string) : bool :=
  bool_decide (key ∈ Object_prototype_names).

Record GenerateParams := mkGenerateParams {
  model : string;
  prompt : string;
  system : option string;
  output : option Output;
  logKey : option string;
  temperature : option float;
  maxOutputTokens : option float;
}.

(** [data]: the plain text, or the structured output. *)
Inductive Data :=
| DataText (s : string)
| DataOutput (v : Parsed).

Record GenerateResponse := mkResponse {
  data : Data;
  metadata : GenerateMetadata;
}.

(** The rest of the foreign code [generate] calls. *)
Record Foreign := mkForeign {
  (** [generateText n args]: the SDK call number [n] with these arguments. *)
  generateText :
    nat → ai.GenerateTextParams LanguageModel Output →
    Settled (ai.GenerateTextResult Parsed);
  (** [console_log line]: [Some e] when [console.log(line)] throws [e]. *)
  console_log : string → option JsError;
  (** [costFormatter.format(x)]: [Intl.NumberFormat], USD, at least 4
      fraction digits. *)
  costFormatter_format : float → string;
  (** [(ms / 1000).toFixed(2)] *)
  seconds_toFixed2 : Z → string;
}.

(** ** The state the code runs in

    [providerCache] is the client's [Map] (the state holds the cache of
    one client, the one the properties are about); the other fields are the
    part of the world a call can observe or change.  [factoryCalls] and
    [generateTextCalls] count the invocations of foreign code: nothing in
    the client reads them. *)
Record State := mkState {
  providerCache : gmap string LanguageModelProvider;
  factoryCalls : gmap string nat;
  generateTextCalls : nat;
  now : Z;
  console : list string;
}.

(** How often the factory of [key] has been invoked so far. *)
Definition invocations (s : State) (key : string) : nat :=
  default 0 (factoryCalls s !! key).

(** [providerCache.set(key, provider)] *)
Definition cache_set (key : string) (p : LanguageModelProvider) (s : State) : State :=
  {| providerCache := <[key := p]> (providerCache s);
     factoryCalls := factoryCalls s;
     generateTextCalls := generateTextCalls s;
     now := now s;
     console := console s |}.

(** [new Map()] *)
Definition cache_new (s : State) : State :=
  {| providerCache := ∅;
     factoryCalls := factoryCalls s;
     generateTextCalls := generateTextCalls s;
     now := now s;
     console := console s |}.

(** The factory of [key] has been invoked once more. *)
Definition factory_invoked (key : string) (s : State) : State :=
  {| providerCache := providerCache s;
     factoryCalls := <[key := S (invocations s key)]> (factoryCalls s);
     generateTextCalls := generateTextCalls s;
     now := now s;
     console := console s |}.

(** [generateText] has been called once more. *)
Definition generateText_called (s : State) : State :=
  {| providerCache := providerCache s;
     factoryCalls := factoryCalls s;
     generateTextCalls := S (generateTextCalls s);
     now := now s;
     console := console s |}.

(** The wall clock has moved by [dt] milliseconds. *)
Definition clock_moved (dt : Z) (s : State) : State :=
  {| providerCache := providerCache s;
     factoryCalls := factoryCalls s;
     generateTextCalls := generateTextCalls s;
     now := (now s + dt)%Z;
     console := console s |}.

(** A line has been printed. *)
Definition printed (line : string) (s : State) : State :=
  {| providerCache := providerCache s;
     factoryCalls := factoryCalls s;
     generateTextCalls := generateTextCalls s;
     now := now s;
     console := console s ++ [line] |}.

(** ** The monad *)

Definition JS (A : Type) : Type := State → Completion A * State.

#[global] Instance JS_ret : MRet JS := λ A a s, (Normal a, s).
#[global] Instance JS_bind : MBind JS := λ A B f m s,
  match m s with
  | (Normal a, s') => f a s'
  | (Throw e, s') => (Throw e, s')
  end.

Definition throw {A : Type} (e : JsError) : JS A := λ s, (Throw e, s).
Definition gets {A : Type} (f : State → A) : JS A := λ s, (Normal (f s), s).
Definition modify (f : State → State) : JS unit := λ s, (Normal tt, f s).
Definition lift {A : Type} (c : Completion A) : JS A := λ s, (c, s).

(** [await Promise.resolve(factory())]: the factory is invoked, the clock
    moves while the caller is suspended, and the caller resumes with the
    provider or with the factory's exception. *)
Definition await_factory (key : string) (factory : ProviderFactory)
  : JS LanguageModelProvider := λ s,
  let r := factory (invocations s key) in
  (settle r, clock_moved (elapsed r) (factory_invoked key s)).

(** [Date.now()] *)
Definition Date_now : JS Z := gets now.

Section Foreign.
Variable env : Foreign.

(** [await generateText(args)] *)
Definition await_generateText (args : ai.GenerateTextParams LanguageModel Output)
  : JS (ai.GenerateTextResult Parsed) := λ s,
  let r := generateText env (generateTextCalls s) args in
  (settle r, clock_moved (elapsed r) (generateText_called s)).

(** [console.log(line)]: the line is printed, unless the call throws. *)
Definition log (line : string) : JS unit := λ s,
  match console_log env line with
  | Some e => (Throw e, s)
  | None => (Normal tt, printed line s)
  end.

(** ** index.ts: the functions [createAI] defines *)

Variable config : Config.

(** [getProvider]: the cache is consulted first; on a miss the factory is
    looked up ([config.providers[providerKey]!] is [undefined] when the
    key is missing, and calling [undefined] is a [TypeError]), invoked and
    awaited, and only then is the provider stored.  For a missing key that
    is one of [Object_prototype_names] the lookup is not [undefined] in
    JavaScript; that case is outside the embedding. *)
Definition getProvider (providerKey : string) : JS LanguageModelProvider :=
  cached ← gets (λ s, providerCache s !! providerKey);
  match cached with
  | Some cached => mret cached
  | None =>
      match providers config !! providerKey with
      | None => throw (TypeError "factory is not a function")
      | Some factory =>
          provider ← await_factory providerKey factory;
          _ ← modify (cache_set providerKey provider);
          mret provider
      end
  end.

(** [getModel]: [config.models[modelKey]!] is [undefined] for a missing
    alias, and reading [.provider] of it is a [TypeError].  The provider's
    call, [provider(modelConfig.id)], is not guarded: what it throws is what
    [getModel] throws.  (For a missing alias that is one of
    [Object_prototype_names] the lookup is not [undefined] in JavaScript;
    that case is outside the embedding.) *)
Definition getModel (modelKey : string) : JS LanguageModel :=
  match models config !! modelKey with
  | None =>
      throw (TypeError "Cannot read properties of undefined (reading 'provider')")
  | Some modelConfig =>
      provider ← getProvider (provider modelConfig);
      lift (provider (id modelConfig))
  end.

(** [calculateCosts] *)
Definition calculateCosts (modelKey : string) (inputTokens outputTokens : float)
  : Completion CostFields :=
  match models config !! modelKey with
  | None =>
      Throw (TypeError "Cannot read properties of undefined (reading 'costs')")
  | Some modelConfig =>
      match costs modelConfig with
      | None =>
          Normal {| inputCostUsd := None; outputCostUsd := None; totalCostUsd := None |}
      | Some c =>
          let inputCostUsd := ((inputTokens / 1000000) * Costs.input c)%float in
          let outputCostUsd := ((outputTokens / 1000000) * Costs.output c)%float in
          let totalCostUsd := (inputCostUsd + outputCostUsd)%float in
          Normal {| inputCostUsd := Some inputCostUsd;
                    outputCostUsd := Some outputCostUsd;
                    totalCostUsd := Some totalCostUsd |}
      end
  end.

(** [costFormatter.format(x!)]: an [undefined] argument formats like [NaN]. *)
Definition format_usd (x : option float) : string :=
  costFormatter_format env (default nan x).

(** The cost part of the log line. *)
Definition costStr (c : CostFields) : string :=
  match totalCostUsd c with
  | Some total =>
      " cost: " +:+ costFormatter_format env total +:+
      " (in: " +:+ format_usd (inputCostUsd c) +:+
      ", out: " +:+ format_usd (outputCostUsd c) +:+ ")"
  | None => ""
  end.

Definition logLine (key : string) (responseTimeMs : Z) (modelKey : string)
    (c : CostFields) : string :=
  "[LLM][" +:+ key +:+ "] " +:+ seconds_toFixed2 env responseTimeMs +:+
  "s using " +:+ modelKey +:+ costStr c.

(** The argument [generate] passes to [generateText]. *)
Definition generateText_args (params : GenerateParams) (m : LanguageModel)
  : ai.GenerateTextParams LanguageModel Output :=
  {| ai.model := m;
     ai.prompt := prompt params;
     ai.system := system params;
     ai.temperature := temperature params;
     ai.maxOutputTokens := maxOutputTokens params;
     ai.experimental_output := output params |}.

(** [generate] *)
Definition generate (params : GenerateParams) : JS GenerateResponse :=
  model_ ← getModel (model params);
  startTime ← Date_now;
  result ← await_generateText (generateText_args params model_);
  endTime ← Date_now;
  let responseTimeMs := (endTime - startTime)%Z in
  let inputTokens := default 0%float (ai.usage result ≫= ai.inputTokens) in
  let outputTokens := default 0%float (ai.usage result ≫= ai.outputTokens) in
  costs ← lift (calculateCosts (model params) inputTokens outputTokens);
  _ ← (if truthy_string (logKey params)
       then log (logLine (default "" (logKey params)) responseTimeMs
                   (model params) costs)
       else mret tt);
  mret {| data := if truthy_object (output params)
                  then DataOutput (ai.output result)
                  else DataText (ai.text result);
          metadata := {| responseTimeMs := responseTimeMs;
                         inputTokens := inputTokens;
                         outputTokens := outputTokens;
                         costFields := costs |} |}.

End Foreign.

(** The client object [createAI] returns. *)
Record Client := mkClient {
  client_generate : GenerateParams → JS GenerateResponse;
}.

(** [createAI(config)]: a fresh, empty provider cache and a [generate]
    closed over it and over [config].  Nothing is validated and no factory
    is invoked. *)
Definition createAI (env : Foreign) (config : Config) : JS Client := λ s,
  (Normal {| client_generate := generate env config |}, cache_new s).

(** A sequence of [generate] calls on one client, each awaited (and its
    outcome, value or exception, taken) before the next is issued. *)
Fixpoint generate_each (client : Client) (calls : list GenerateParams) (s : State)
  : list (Completion GenerateResponse) * State :=
  match calls with
  | [] => ([], s)
  | params :: calls =>
      let '(r, s1) := client_generate client params s in
      let '(rs, s2) := generate_each client calls s1 in
      (r :: rs, s2)
  end.

(** How many of the invocations number [a], ..., [b - 1] of a factory
    yielded a provider. *)
Definition fulfilled_between (factory : ProviderFactory) (a b : nat) : nat :=
  length (filter (λ i, is_Normal (settle (factory i)) = true) (seq a (b - a))).

(** ** Overlapping resolutions

    An [async] function runs until its next [await] and is resumed later;
    other calls can run in between.  A call of [getProvider] has one
    [await], after the factory has been invoked and before the provider is
    stored. *)
Inductive Resolution :=
| Called (providerKey : string)
| Awaiting (providerKey : string) (r : Settled LanguageModelProvider)
| Returned (r : Completion LanguageModelProvider).

(** One uninterrupted stretch of a [getProvider] call. *)
Definition resolution_step (config : Config) (t : Resolution) (s : State)
  : Resolution * State :=
  match t with
  | Called providerKey =>
      match providerCache s !! providerKey with
      | Some cached => (Returned (Normal cached), s)
      | None =>
          match providers config !! providerKey with
          | None => (Returned (Throw (TypeError "factory is not a function")), s)
          | Some factory =>
              (Awaiting providerKey (factory (invocations s providerKey)),
               factory_invoked providerKey s)
          end
      end
  | Awaiting providerKey r =>
      match settle r with
      | Normal provider =>
          (Returned (Normal provider),
           cache_set providerKey provider (clock_moved (elapsed r) s))
      | Throw e => (Returned (Throw e), clock_moved (elapsed r) s)
      end
  | Returned r => (Returned r, s)
  end.

(** The calls in flight, run in the order the scheduler picks: each entry
    of [schedule] is the index of the call that runs its next stretch. *)
Fixpoint run_resolutions (config : Config) (schedule : list nat)
    (tasks : list Resolution) (s : State) : list Resolution * State :=
  match schedule with
  | [] => (tasks, s)
  | i :: schedule =>
      match tasks !! i with
      | None => run_resolutions config schedule tasks s
      | Some t =>
          let '(t', s') := resolution_step config t s in
          run_resolutions config schedule (<[i := t']> tasks) s'
      end
  end.

(** ** Notions the statements use *)

(** The response [generate] builds from the two timestamps, the SDK's
    result and the cost fields. *)
Definition response_of (params : GenerateParams) (startTime endTime : Z)
    (result : ai.GenerateTextResult Parsed) (c : CostFields)
  : GenerateResponse :=
  {| data := if truthy_object (output params)
             then DataOutput (ai.output result)
             else DataText (ai.text result);
     metadata :=
       {| responseTimeMs := (endTime - startTime)%Z;
          inputTokens := default 0%float (ai.usage result ≫= ai.inputTokens);
          outputTokens := default 0%float (ai.usage result ≫= ai.outputTokens);
          costFields := c |} |}.

(** [params] with [logKey] left out. *)
Definition without_logKey (params : GenerateParams) : GenerateParams :=
  {| model := model params;
     prompt := prompt params;
     system := system params;
     output := output params;
     logKey := None;
     temperature := temperature params;
     maxOutputTokens := maxOutputTokens params |}.

(** ** The cache invariant (for the proofs)

    [w] is the state the client was created in.  For every key, the
    factory invocations made since then all failed as long as nothing is
    cached; once a provider is cached, it is what the last invocation
    yielded, and every earlier one failed. *)
Definition cache_inv (config : Config) (w s : State) : Prop :=
  ∀ key,
    invocations w key ≤ invocations s key
    ∧ match providerCache s !! key with
      | None =>
          ∀ (factory : ProviderFactory) (i : nat), providers config !! key = Some factory →
            invocations w key ≤ i < invocations s key →
            is_Normal (settle (factory i)) = false
      | Some p =>
          ∃ factory : ProviderFactory, providers config !! key = Some factory
            ∧ invocations w key < invocations s key
            ∧ settle (factory (pred (invocations s key))) = Normal p
            ∧ ∀ i, invocations w key ≤ i < pred (invocations s key) →
                is_Normal (settle (factory i)) = false
      end.

(** ** Notions for overlapping resolutions *)

(** Every cached provider is one that an invocation of its key's factory
    yielded. *)
Definition cache_sound (config : Config) (s : State) : Prop :=
  ∀ (key : string) (p : LanguageModelProvider),
    providerCache s !! key = Some p →
    ∃ (factory : ProviderFactory) (i : nat),
      providers config !! key = Some factory
      ∧ i < invocations s key
      ∧ settle (factory i) = Normal p.

(** A call suspended at its [await] waits for what an invocation of its
    key's factory yields. *)
Definition resolution_sound (config : Config) (s : State) (t : Resolution) : Prop :=
  match t with
  | Awaiting key r =>
      ∃ (factory : ProviderFactory) (i : nat),
        providers config !! key = Some factory
        ∧ i < invocations s key
        ∧ r = factory i
  | _ => True
  end.

(** The call has not started yet and is for [key]. *)
Definition is_Called (key : string) (t : Resolution) : bool :=
  match t with
  | Called providerKey => String.eqb providerKey key
  | _ => false
  end.

(** How many calls for [key] have not started yet. *)
Definition pending (key : string) (tasks : list Resolution) : nat :=
  length (filter (λ t, is_Called key t = true) tasks).

End Client.

(** * A concrete client

    The client of the README, over model handles, schemas and structured
    values that are strings. *)

Definition openai : @LanguageModelProvider string :=
  λ modelId, Normal ("openai/" +:+ modelId).

Definition anthropic : @LanguageModelProvider string :=
  λ modelId, Normal ("anthropic/" +:+ modelId).

(** A factory that yields [p] at every invocation, [dt] ms later. *)
Definition ready (dt : Z) (p : @LanguageModelProvider string)
  : @ProviderFactory string :=
  λ _, mkSettled dt (Normal p).

(** A factory whose first invocation throws [e] and whose later
    invocations yield [p]. *)
Definition fails_once (e : JsError) (p : @LanguageModelProvider string)
  : @ProviderFactory string :=
  λ n, match n with
       | 0 => mkSettled 3 (Throw e)
       | S _ => mkSettled 40 (Normal p)
       end.

Definition readme_models : gmap string ModelEntry :=
  <["fast" := mkModelEntry "openai" "gpt-4o-mini" None]>
  (<["smart" := mkModelEntry "openai" "gpt-4o" (Some (Costs.mk 2.5 10))]>
  (<["claude" := mkModelEntry "anthropic" "claude-sonnet-4-20250514"
                   (Some (Costs.mk 3 15))]> ∅)).

Definition readme_config : @Config string :=
  {| providers :=
       <["openai" := ready 40 openai]> (<["anthropic" := ready 250 anthropic]> ∅);
     models := readme_models |}.

(** The same models, with an [openai] factory that fails the first time
    ([new Error("no API key")]). *)
Definition flaky_config : @Config string :=
  {| providers :=
       <["openai" := fails_once (mkError "Error" "no API key") openai]>
       (<["anthropic" := ready 250 anthropic]> ∅);
     models := readme_models |}.

(** A configuration the type checker would refuse: the model [fast] names
    a provider that is not configured. *)
Definition dangling_config : @Config string :=
  {| providers := <["anthropic" := ready 250 anthropic]> ∅;
     models := readme_models |}.

(** An SDK whose every call takes [dt] ms on the wall clock and reports
    1_000_000 input and 500_000 output tokens, and a console that prints
    unless [broken] is set. *)
Definition demo_env (dt : Z) (broken : option JsError) : @Foreign string string string :=
  {| generateText := λ _ args,
       mkSettled dt
         (Normal {| ai.text := "Hello from " +:+ ai.model args;
                    ai.output := "{}";
                    ai.usage := Some {| ai.inputTokens := Some 1000000%float;
                                        ai.outputTokens := Some 500000%float |} |});
     console_log := λ _, broken;
     costFormatter_format := λ _, "$_";
     seconds_toFixed2 := λ _, "_" |}.

Definition demo_params (modelKey : string) (schema logKey : option string)
  : @GenerateParams string :=
  {| model := modelKey;
     prompt := "Hello, world!";
     system := None;
     output := schema;
     logKey := logKey;
     temperature := None;
     maxOutputTokens := None |}.

(** The world before the client is created. *)
Definition world : @State string :=
  {| providerCache := ∅;
     factoryCalls := ∅;
     generateTextCalls := 0;
     now := 1700000000000;
     console := [] |}.

(** * Properties *)

Section Properties.
Context {LanguageModel Output Parsed : Type}.
Implicit Types (env : @Foreign LanguageModel Output Parsed).
Implicit Types (config : @Config LanguageModel).
Implicit Types (params : @GenerateParams Output).
Implicit Types (s : @State LanguageModel).
Implicit Types (key : string).
Implicit Types (factory : @ProviderFactory LanguageModel).
Implicit Types (p : @LanguageModelProvider LanguageModel).

(** ** How the state evolves *)

Lemma invocations_factory_invoked s key key' :
  invocations (factory_invoked key s) key' =
  if decide (key = key') then S (invocations s key) else invocations s key'.
Proof.
  unfold invocations at 1. cbn [factory_invoked factoryCalls].
  rewrite lookup_insert. by case_decide.
Qed.

Lemma invocations_cache_set s key p key' :
  invocations (cache_set key p s) key' = invocations s key'.
Proof. done. Qed.

Lemma invocations_clock_moved s (dt : Z) key :
  invocations (clock_moved dt s) key = invocations s key.
Proof. done. Qed.

Create Rewrite HintDb invocations.
Hint Rewrite invocations_cache_set invocations_clock_moved
  invocations_factory_invoked : invocations.

(** Bring [invocations] of an updated state back to the state before. *)
Ltac invocations_simpl :=
  autorewrite with invocations; try case_decide; try done.

Lemma invocations_ext s s' key :
  factoryCalls s = factoryCalls s' → invocations s key = invocations s' key.
Proof. unfold invocations. by intros ->. Qed.

(** ** [getProvider], case by case *)

Lemma getProvider_hit config key s p :
  providerCache s !! key = Some p →
  getProvider config key s = (Normal p, s).
Proof.
  intros Hc. unfold getProvider, mbind, JS_bind, gets. by rewrite Hc.
Qed.

Lemma getProvider_unknown config key s :
  providerCache s !! key = None →
  providers config !! key = None →
  getProvider config key s = (Throw (TypeError "factory is not a function"), s).
Proof.
  intros Hc Hf. unfold getProvider, mbind, JS_bind, gets. by rewrite Hc, Hf.
Qed.

Lemma getProvider_miss config key s factory :
  providerCache s !! key = None →
  providers config !! key = Some factory →
  getProvider config key s =
  let r := factory (invocations s key) in
  let s1 := clock_moved (elapsed r) (factory_invoked key s) in
  match settle r with
  | Normal p => (Normal p, cache_set key p s1)
  | Throw e => (Throw e, s1)
  end.
Proof.
  intros Hc Hf. unfold getProvider, mbind, JS_bind, gets, await_factory, modify.
  rewrite Hc, Hf. cbn. by destruct (settle _).
Qed.

(** On a miss the factory is invoked exactly once, whatever it yields. *)
Lemma getProvider_miss_invocations config key s factory :
  providerCache s !! key = None →
  providers config !! key = Some factory →
  invocations (getProvider config key s).2 key = S (invocations s key).
Proof.
  intros Hc Hf. rewrite (getProvider_miss _ _ _ factory) by done. cbn zeta.
  destruct (settle _); cbn [snd]; invocations_simpl.
Qed.

(** [getModel] is [getProvider] followed by the provider's call. *)
Lemma getModel_known config modelKey modelConfig s :
  models config !! modelKey = Some modelConfig →
  getModel config modelKey s =
  match getProvider config (provider modelConfig) s with
  | (Normal p, s1) => (p (id modelConfig), s1)
  | (Throw e, s1) => (Throw e, s1)
  end.
Proof.
  intros Hm. unfold getModel. rewrite Hm. unfold mbind, JS_bind, lift.
  by destruct (getProvider _ _ _) as [[p|e] s1].
Qed.

Lemma getModel_unknown config modelKey s :
  models config !! modelKey = None →
  getModel config modelKey s =
  (Throw (TypeError "Cannot read properties of undefined (reading 'provider')"), s).
Proof. intros Hm. unfold getModel. by rewrite Hm. Qed.

(** Resolution leaves the console and the SDK alone. *)
Lemma getProvider_frame config key s :
  console (getProvider config key s).2 = console s
  ∧ generateTextCalls (getProvider config key s).2 = generateTextCalls s.
Proof.
  destruct (providerCache s !! key) as [p|] eqn:Hc.
  { by rewrite (getProvider_hit _ _ _ p). }
  destruct (providers config !! key) as [factory|] eqn:Hf.
  - rewrite (getProvider_miss _ _ _ factory) by done. cbn zeta.
    by destruct (settle _).
  - by rewrite getProvider_unknown.
Qed.

Lemma getModel_frame config modelKey s :
  console (getModel config modelKey s).2 = console s
  ∧ generateTextCalls (getModel config modelKey s).2 = generateTextCalls s.
Proof.
  destruct (models config !! modelKey) as [modelConfig|] eqn:Hm.
  - rewrite (getModel_known _ _ modelConfig) by done.
    pose proof (getProvider_frame config (provider modelConfig) s) as H.
    by destruct (getProvider _ _ _) as [[p|e] s1].
  - by rewrite getModel_unknown.
Qed.

(** ** [generate], unfolded along its control flow *)

Lemma generate_unfold env config params s :
  generate env config params s =
  match getModel config (model params) s with
  | (Throw e, s1) => (Throw e, s1)
  | (Normal m, s1) =>
      let r := generateText env (generateTextCalls s1) (generateText_args params m) in
      let s2 := clock_moved (elapsed r) (generateText_called s1) in
      match settle r with
      | Throw e => (Throw e, s2)
      | Normal result =>
          match calculateCosts config (model params)
                  (default 0%float (ai.usage result ≫= ai.inputTokens))
                  (default 0%float (ai.usage result ≫= ai.outputTokens)) with
          | Throw e => (Throw e, s2)
          | Normal c =>
              let response := response_of params (now s1) (now s2) result c in
              if truthy_string (logKey params) then
                let line :=
                  logLine env (default "" (logKey params)) (now s2 - now s1)
                    (model params) c in
                match console_log env line with
                | Some e => (Throw e, s2)
                | None => (Normal response, printed line s2)
                end
              else (Normal response, s2)
          end
      end
  end.
Proof.
  unfold generate, mbind, JS_bind.
  destruct (getModel config (model params) s) as [[m|e] s1]; [|done].
  unfold Date_now, gets, await_generateText. cbn zeta.
  destruct (settle _) as [result|e]; [|done].
  unfold lift. destruct (calculateCosts _ _ _ _) as [c|e]; [|done].
  destruct (truthy_string _); [|done].
  unfold log. by destruct (console_log _ _).
Qed.

(** After resolution, [generate] no longer touches the cache or the
    factories. *)
Lemma generate_resolution_state env config params s :
  providerCache (generate env config params s).2
  = providerCache (getModel config (model params) s).2
  ∧ factoryCalls (generate env config params s).2
    = factoryCalls (getModel config (model params) s).2.
Proof.
  rewrite generate_unfold.
  destruct (getModel config (model params) s) as [[m|e] s1]; [|done].
  cbn zeta. destruct (settle _) as [result|e]; [|done].
  destruct (calculateCosts _ _ _ _) as [c|e]; [|done].
  destruct (truthy_string _); [|done]. by destruct (console_log _ _).
Qed.

Lemma getModel_resolution_state config modelKey s :
  (getModel config modelKey s).2 =
  match models config !! modelKey with
  | Some modelConfig => (getProvider config (provider modelConfig) s).2
  | None => s
  end.
Proof.
  destruct (models config !! modelKey) as [modelConfig|] eqn:Hm.
  - rewrite (getModel_known _ _ modelConfig) by done.
    by destruct (getProvider _ _ _) as [[p|e] s1].
  - by rewrite getModel_unknown.
Qed.

Lemma cache_inv_ext config w s s' :
  providerCache s' = providerCache s →
  factoryCalls s' = factoryCalls s →
  cache_inv config w s → cache_inv config w s'.
Proof.
  intros Hc Hf Hinv key.
  assert (invocations s' key = invocations s key) as Hi
    by (unfold invocations; by rewrite Hf).
  rewrite Hc, !Hi. apply Hinv.
Qed.

Lemma cache_inv_new config w : cache_inv config w (cache_new w).
Proof.
  intros key. split; [done|]. cbn. rewrite lookup_empty.
  intros factory i _. unfold invocations; cbn. lia.
Qed.

Lemma cache_inv_getProvider config w s key :
  cache_inv config w s → cache_inv config w (getProvider config key s).2.
Proof.
  intros Hinv.
  destruct (providerCache s !! key) as [p|] eqn:Hc.
  { by rewrite (getProvider_hit _ _ _ p). }
  destruct (providers config !! key) as [factory|] eqn:Hf;
    [|by rewrite getProvider_unknown].
  rewrite (getProvider_miss _ _ _ factory) by done. cbn zeta.
  intros key'. destruct (Hinv key') as [Hle Hkey'].
  destruct (settle (factory (invocations s key))) as [p|e] eqn:Hr; cbn.
  - (* the factory yielded [p]: it is stored under [key] *)
    rewrite lookup_insert.
    autorewrite with invocations.
    destruct (decide (key = key')) as [<-|Hne]; [|done].
    split; [lia|]. exists factory. rewrite Hc in Hkey'. cbn.
    split_and!; [done|lia|done|]. intros i Hi. by apply Hkey'.
  - (* the factory failed: nothing is stored *)
    autorewrite with invocations.
    destruct (decide (key = key')) as [<-|Hne]; [|done].
    split; [lia|]. rewrite Hc in Hkey' |- *.
    intros factory' i Hf' Hi. assert (factory' = factory) as -> by congruence.
    destruct (decide (i = invocations s key)) as [->|Hi'].
    + by rewrite Hr.
    + apply Hkey'; [done|lia].
Qed.

Lemma cache_inv_generate env config w s params :
  cache_inv config w s → cache_inv config w (generate env config params s).2.
Proof.
  intros Hinv.
  destruct (generate_resolution_state env config params s) as [Hc Hf].
  eapply cache_inv_ext; [done..|].
  rewrite getModel_resolution_state.
  destruct (models config !! model params); [|done].
  by apply cache_inv_getProvider.
Qed.

Lemma cache_inv_generate_each env config w calls s :
  cache_inv config w s →
  cache_inv config w (generate_each {| client_generate := generate env config |} calls s).2.
Proof.
  revert s. induction calls as [|params calls IH]; intros s Hinv; [done|].
  cbn. pose proof (cache_inv_generate env config w s params Hinv) as H1.
  destruct (generate env config params s) as [r s1].
  specialize (IH s1 H1). by destruct (generate_each _ calls s1) as [rs s2].
Qed.

(** A cached provider stays, and its factory rests. *)
Lemma getProvider_keeps_cached config key key' s p :
  providerCache s !! key = Some p →
  providerCache (getProvider config key' s).2 !! key = Some p
  ∧ invocations (getProvider config key' s).2 key = invocations s key.
Proof.
  intros Hp.
  destruct (providerCache s !! key') as [p'|] eqn:Hc.
  { by rewrite (getProvider_hit _ _ _ p'). }
  assert (key' ≠ key) as Hne by congruence.
  destruct (providers config !! key') as [factory|] eqn:Hf;
    [|by rewrite getProvider_unknown].
  rewrite (getProvider_miss _ _ _ factory) by done. cbn zeta.
  destruct (settle _) as [p'|e]; cbn.
  - rewrite lookup_insert_ne by done. split; [done|]. invocations_simpl.
  - split; [done|]. invocations_simpl.
Qed.

Lemma generate_keeps_cached env config key params s p :
  providerCache s !! key = Some p →
  providerCache (generate env config params s).2 !! key = Some p
  ∧ invocations (generate env config params s).2 key = invocations s key.
Proof.
  intros Hp.
  destruct (generate_resolution_state env config params s) as [Hc Hf].
  unfold invocations. rewrite Hc, Hf, getModel_resolution_state.
  destruct (models config !! model params) as [modelConfig|]; [|done].
  by apply getProvider_keeps_cached.
Qed.

Lemma generate_each_keeps_cached env config key calls s p :
  providerCache s !! key = Some p →
  providerCache (generate_each {| client_generate := generate env config |} calls s).2
    !! key = Some p
  ∧ invocations (generate_each {| client_generate := generate env config |} calls s).2 key
    = invocations s key.
Proof.
  revert s. induction calls as [|params calls IH]; intros s Hp; [done|].
  cbn. destruct (generate_keeps_cached env config key params s p Hp) as [H1 H2].
  destruct (generate env config params s) as [r s1].
  destruct (IH s1 H1) as [H3 H4].
  destruct (generate_each _ calls s1) as [rs s2]. cbn in *. split; [done|congruence].
Qed.

(** ** Cost computation *)

(** C2: for a model alias whose entry has costs configured, and for all token
    counts, [calculateCosts] returns [inputTokens / 1_000_000 * costs.input],
    [outputTokens / 1_000_000 * costs.output] and their sum, in double
    precision; with costs [{input: 2.5, output: 10}], 1_000_000 input and
    500_000 output tokens these are 2.5, 5.0 and 7.5. *)
Theorem calculateCosts_configured config modelKey modelConfig (c : Costs.t)
    (inputTokens outputTokens : float) :
  models config !! modelKey = Some modelConfig →
  costs modelConfig = Some c →
  calculateCosts config modelKey inputTokens outputTokens =
    Normal
      {| inputCostUsd := Some (inputTokens / 1000000 * Costs.input c)%float;
         outputCostUsd := Some (outputTokens / 1000000 * Costs.output c)%float;
         totalCostUsd :=
           Some (inputTokens / 1000000 * Costs.input c
                 + outputTokens / 1000000 * Costs.output c)%float |}
  ∧ (c = Costs.mk 2.5 10 →
     calculateCosts config modelKey 1000000 500000 =
       Normal {| inputCostUsd := Some 2.5%float;
                 outputCostUsd := Some 5%float;
                 totalCostUsd := Some 7.5%float |}).
Proof.
  intros Hm Hc. unfold calculateCosts. rewrite Hm, Hc. split; [done|].
  intros ->. reflexivity.
Qed.

Lemma calculateCosts_not_configured config modelKey modelConfig
    (inputTokens outputTokens : float) :
  models config !! modelKey = Some modelConfig →
  costs modelConfig = None →
  calculateCosts config modelKey inputTokens outputTokens =
    Normal {| inputCostUsd := None; outputCostUsd := None; totalCostUsd := None |}.
Proof. intros Hm Hc. unfold calculateCosts. by rewrite Hm, Hc. Qed.

(** What a successful [generate] went through: the model was resolved, the
    SDK call settled with a result, and the costs were computed. *)
Lemma generate_Normal_inv env config params s response s' :
  generate env config params s = (Normal response, s') →
  ∃ m s1 result c,
    getModel config (model params) s = (Normal m, s1)
    ∧ settle (generateText env (generateTextCalls s1) (generateText_args params m))
      = Normal result
    ∧ calculateCosts config (model params)
        (default 0%float (ai.usage result ≫= ai.inputTokens))
        (default 0%float (ai.usage result ≫= ai.outputTokens)) = Normal c
    ∧ response =
        response_of params (now s1)
          (now s1 + elapsed (generateText env (generateTextCalls s1)
                               (generateText_args params m))) result c.
Proof.
  rewrite generate_unfold.
  destruct (getModel config (model params) s) as [[m|e] s1]; [|done].
  cbn zeta. destruct (settle _) as [result|e] eqn:Hr; [|done].
  destruct (calculateCosts _ _ _ _) as [c|e] eqn:Hc; [|done].
  intros H. exists m, s1, result, c. split_and!; try done.
  destruct (truthy_string _); [destruct (console_log _ _)|]; by simplify_eq.
Qed.

(** C3: the three cost fields of the metadata a [generate] call returns are
    present exactly when the resolved model entry has [costs]; without
    [costs] all three are [undefined], whatever the token counts.  The cost
    step itself never fails: once the model is resolved and the SDK call has
    returned, the call returns its metadata (unless logging throws), with all
    three fields present for an entry with [costs] and none without. *)
Theorem generate_cost_fields_iff_costs env config params s :
  (∀ response s',
     generate env config params s = (Normal response, s') →
     ∃ modelConfig,
       models config !! model params = Some modelConfig
       ∧ (is_Some (inputCostUsd (costFields (metadata response)))
          ↔ is_Some (costs modelConfig))
       ∧ (is_Some (outputCostUsd (costFields (metadata response)))
          ↔ is_Some (costs modelConfig))
       ∧ (is_Some (totalCostUsd (costFields (metadata response)))
          ↔ is_Some (costs modelConfig))
       ∧ (costs modelConfig = None →
          costFields (metadata response) =
            {| inputCostUsd := None; outputCostUsd := None; totalCostUsd := None |}))
  ∧ (∀ (m : LanguageModel) s1 (result : ai.GenerateTextResult Parsed),
       getModel config (model params) s = (Normal m, s1) →
       settle (generateText env (generateTextCalls s1) (generateText_args params m))
         = Normal result →
       (truthy_string (logKey params) = false ∨ ∀ line, console_log env line = None) →
       ∃ response s' modelConfig,
         generate env config params s = (Normal response, s')
         ∧ models config !! model params = Some modelConfig
         ∧ (is_Some (costs modelConfig) →
            is_Some (inputCostUsd (costFields (metadata response)))
            ∧ is_Some (outputCostUsd (costFields (metadata response)))
            ∧ is_Some (totalCostUsd (costFields (metadata response))))
         ∧ (costs modelConfig = None →
            costFields (metadata response) =
              {| inputCostUsd := None; outputCostUsd := None;
                 totalCostUsd := None |})).
Proof.
  split.
  - intros response s' (m & s1 & result & c & _ & _ & Hc & ->)%generate_Normal_inv.
    unfold calculateCosts in Hc.
    destruct (models config !! model params) as [modelConfig|]; [|done].
    exists modelConfig. split; [done|]. cbn.
    destruct (costs modelConfig) as [rates|]; simplify_eq; cbn;
      repeat split; intros; try done; by eauto.
  - intros m s1 result Hget Hr Hlog.
    destruct (models config !! model params) as [modelConfig|] eqn:Hmc;
      [|by rewrite getModel_unknown in Hget].
    rewrite generate_unfold, Hget. cbn zeta. rewrite Hr.
    unfold calculateCosts. rewrite Hmc.
    assert (∀ (line : string) (response : @GenerateResponse Parsed) (s2 : State),
              ∃ s',
                (if truthy_string (logKey params)
                 then match console_log env line with
                      | Some e => (Throw e, s2)
                      | None => (Normal response, printed line s2)
                      end
                 else (Normal response, s2)) = (Normal response, s')) as Hlogged.
    { intros line response s2. destruct Hlog as [->|Hnone]; [by eexists|].
      destruct (truthy_string _); [rewrite Hnone|]; by eexists. }
    destruct (costs modelConfig) as [rates|] eqn:Hcosts; cbn zeta.
    + edestruct Hlogged as [s' ->]. eexists _, s', modelConfig.
      split_and!; [reflexivity|done| |congruence]. intros _. cbn. by split_and!.
    + edestruct Hlogged as [s' ->]. eexists _, s', modelConfig.
      split_and!; [reflexivity|done| |done]. rewrite Hcosts. by intros [??].
Qed.

(** ** The returned data *)

(** C8: the data of a successful [generate] call is the SDK's plain text
    when [params.output] is omitted, and the SDK's structured result, for
    the schema passed on to it, when [params.output] is supplied. *)
Theorem generate_data env config params s response s' :
  generate env config params s = (Normal response, s') →
  ∃ m s1 result,
    getModel config (model params) s = (Normal m, s1)
    ∧ settle (generateText env (generateTextCalls s1) (generateText_args params m))
      = Normal result
    ∧ ai.experimental_output (generateText_args params m) = output params
    ∧ (output params = None → data response = DataText (ai.text result))
    ∧ (is_Some (output params) → data response = DataOutput (ai.output result)).
Proof.
  intros (m & s1 & result & c & Hm & Hr & _ & ->)%generate_Normal_inv.
  exists m, s1, result. split_and!; try done; cbn.
  - by intros ->.
  - by intros [schema ->].
Qed.

(** ** The log line *)

(** C10: with [logKey] the empty string no line is logged; the gate is the
    truthiness of [params.logKey], so a call logs (one line) only when
    [logKey] is a non-empty string. *)
Theorem generate_logs_iff_logKey_truthy env config params s :
  (logKey params = Some "" → console (generate env config params s).2 = console s)
  ∧ (console (generate env config params s).2 ≠ console s →
     ∃ key line,
       logKey params = Some key ∧ key ≠ ""
       ∧ console (generate env config params s).2 = console s ++ [line]).
Proof.
  rewrite generate_unfold.
  pose proof (getModel_frame config (model params) s) as [Hmodel _].
  destruct (getModel config (model params) s) as [[m|e] s1]; cbn in Hmodel;
    [|by split].
  cbn zeta. destruct (settle _) as [result|e]; [|by split].
  destruct (calculateCosts _ _ _ _) as [c|e]; [|by split].
  destruct (logKey params) as [key|] eqn:Hkey; cbn; [|by split].
  destruct (String.eqb_spec key "") as [->|Hne]; cbn; [by split|].
  destruct (console_log _ _); cbn; [by split|].
  split; [by intros [= ->]|]. intros _. eexists key, _. by rewrite Hmodel.
Qed.

(** C7, as the code has it: the log step is not guarded.  A call with a
    non-empty [logKey] does what the same call without [logKey] does and then
    prints the line; when [console.log] throws, the exception is the outcome
    of [generate] and the response is lost; when it does not, the full
    response is returned. *)
Theorem generate_log_unguarded env config params key s :
  logKey params = Some key →
  key ≠ "" →
  generate env config params s =
  match generate env config (without_logKey params) s with
  | (Throw e, s') => (Throw e, s')
  | (Normal response, s') =>
      let line :=
        logLine env key (responseTimeMs (metadata response)) (model params)
          (costFields (metadata response)) in
      match console_log env line with
      | Some e => (Throw e, s')
      | None => (Normal response, printed line s')
      end
  end.
Proof.
  intros Hkey Hne. rewrite !generate_unfold.
  change (model (without_logKey params)) with (model params).
  change (logKey (without_logKey params)) with (@None string).
  destruct (getModel config (model params) s) as [[m|e] s1]; [|done].
  change (generateText_args (without_logKey params) m)
    with (generateText_args params m).
  cbn zeta. destruct (settle _) as [result|e]; [|done].
  destruct (calculateCosts _ _ _ _) as [c|e]; [|done].
  rewrite Hkey. cbn. by destruct (String.eqb_spec key "").
Qed.

(** ** Timing *)

(** C9, as the code has it: [responseTimeMs] is the end timestamp minus the
    start timestamp, both taken around the SDK call only (the start after the
    model and its provider are resolved), so it is what the clock moved by
    during that call, and it is non-negative exactly when the clock did not
    go back meanwhile. *)
Theorem generate_responseTimeMs env config params s response s' :
  generate env config params s = (Normal response, s') →
  ∃ m s1,
    getModel config (model params) s = (Normal m, s1)
    ∧ let r := generateText env (generateTextCalls s1) (generateText_args params m) in
      responseTimeMs (metadata response) = ((now s1 + elapsed r) - now s1)%Z
      ∧ responseTimeMs (metadata response) = elapsed r
      ∧ (0 ≤ responseTimeMs (metadata response) ↔ 0 ≤ elapsed r)%Z.
Proof.
  intros (m & s1 & result & c & Hm & _ & _ & ->)%generate_Normal_inv.
  exists m, s1. split; [done|]. cbn. split_and!; [done|lia|lia].
Qed.

(** ** Failures *)


(** C6, as the code has it: a model entry whose provider key is absent
    from the provider mapping ([config.providers[key]] is [undefined]: no
    own key, and no name inherited from [Object.prototype]) does not stop
    [createAI]; the first [generate] call for that model, whatever was
    called before, fails with the runtime's [TypeError]. *)
Theorem generate_unknown_provider env config params modelConfig w calls :
  models config !! model params = Some modelConfig →
  providers config !! provider modelConfig = None →
  inherited_from_Object_prototype (provider modelConfig) = false →
  ∃ client s0,
    createAI env config w = (Normal client, s0)
    ∧ let s := (generate_each client calls s0).2 in
      ∃ e, client_generate client params s = (Throw e, s) ∧ name e = "TypeError".
Proof.
  intros Hm Hp _. eexists _, _. split; [done|]. cbn zeta.
  set (s := (generate_each _ calls _).2).
  assert (providerCache s !! provider modelConfig = None) as Hc.
  { pose proof (cache_inv_generate_each env config w calls _ (cache_inv_new config w))
      as Hinv.
    destruct (Hinv (provider modelConfig)) as [_ H]. fold s in H.
    destruct (providerCache s !! provider modelConfig); [|done].
    destruct H as (factory & ? & _). congruence. }
  cbn [client_generate].
  rewrite generate_unfold, (getModel_known _ _ modelConfig) by done.
  rewrite getProvider_unknown by done. by eexists.
Qed.

(** C5, as the code has it: when the factory of a key fails, [getProvider]
    fails with the factory's own exception, stores nothing in the cache, and
    the next [generate] call for a model of that provider invokes the factory
    once more. *)
Theorem getProvider_factory_failure env config key factory e s :
  providerCache s !! key = None →
  providers config !! key = Some factory →
  settle (factory (invocations s key)) = Throw e →
  ∃ s',
    getProvider config key s = (Throw e, s')
    ∧ providerCache s' = providerCache s
    ∧ invocations s' key = S (invocations s key)
    ∧ ∀ params modelConfig,
        models config !! model params = Some modelConfig →
        provider modelConfig = key →
        invocations (generate env config params s').2 key = S (S (invocations s key)).
Proof.
  intros Hc Hf Hr. rewrite (getProvider_miss _ _ _ factory) by done. cbn zeta.
  rewrite Hr. eexists. split; [done|].
  set (s' := clock_moved _ _).
  assert (invocations s' key = S (invocations s key)) as Hn.
  { unfold s'. invocations_simpl. }
  split_and!; [done..|].
  intros params modelConfig Hm <-.
  destruct (generate_resolution_state env config params s') as [_ Hcalls].
  rewrite (invocations_ext _ _ _ Hcalls), getModel_resolution_state, Hm.
  by rewrite (getProvider_miss_invocations _ _ _ factory), Hn.
Qed.

(** ** Load once *)

Lemma filter_seq_failed `{∀ i : nat, Decision (P i)} (a n : nat) :
  (∀ i, a ≤ i < a + n → ¬ P i) → filter P (seq a n) = [].
Proof.
  revert a. induction n as [|n IH]; intros a Hall; [done|].
  cbn [seq]. rewrite filter_cons_False by (apply Hall; lia).
  apply IH. intros i Hi. apply Hall. lia.
Qed.

Lemma fulfilled_between_failed factory (a b : nat) :
  (∀ i, a ≤ i < b → is_Normal (settle (factory i)) = false) →
  fulfilled_between factory a b = 0.
Proof.
  intros Hall. unfold fulfilled_between. rewrite filter_seq_failed; [done|].
  intros i Hi. rewrite Hall by lia. done.
Qed.

Lemma fulfilled_between_last factory (a b : nat) :
  a < b →
  is_Normal (settle (factory (pred b))) = true →
  (∀ i, a ≤ i < pred b → is_Normal (settle (factory i)) = false) →
  fulfilled_between factory a b = 1.
Proof.
  intros Hab Hlast Hall. unfold fulfilled_between.
  replace (b - a) with (S (pred b - a)) by lia.
  rewrite seq_S, filter_app, filter_seq_failed.
  - replace (a + (pred b - a)) with (pred b) by lia.
    by rewrite filter_cons_True.
  - intros i Hi. rewrite Hall by lia. done.
Qed.

(** C1, as the code has it: across any sequence of [generate] calls on one
    client, each awaited before the next, at most one invocation of a key's
    factory yields a provider, and a factory that never fails is invoked at
    most once.  The first successful resolution stores the provider in the
    cache, and from then on every resolution of that key returns the cached
    provider and the factory is not invoked again. *)
Theorem provider_factory_fulfils_at_most_once env config w calls key factory :
  providers config !! key = Some factory →
  ∃ client s0,
    createAI env config w = (Normal client, s0)
    ∧ let s := (generate_each client calls s0).2 in
      fulfilled_between factory (invocations w key) (invocations s key) ≤ 1
      ∧ ((∀ i, is_Normal (settle (factory i)) = true) →
         invocations s key ≤ S (invocations w key))
      ∧ (∀ p s', getProvider config key s = (Normal p, s') →
           providerCache s' !! key = Some p)
      ∧ (∀ p, providerCache s !! key = Some p →
           getProvider config key s = (Normal p, s)
           ∧ ∀ more, invocations (generate_each client more s).2 key
                     = invocations s key).
Proof.
  intros Hf. eexists _, _. split; [done|]. cbn zeta.
  set (client := {| client_generate := generate env config |}).
  set (s := (generate_each client calls _).2).
  assert (cache_inv config w s) as Hinv
    by apply cache_inv_generate_each, cache_inv_new.
  destruct (Hinv key) as [Hle H].
  split_and!.
  - destruct (providerCache s !! key) as [p|].
    + destruct H as (factory' & Hf' & Hlt & Hlast & Hall).
      assert (factory' = factory) as -> by congruence.
      rewrite fulfilled_between_last; [done..| |done]. by rewrite Hlast.
    + rewrite fulfilled_between_failed; [lia|]. intros i Hi. by apply H.
  - intros Hok.
    assert (∀ n, (∀ i, invocations w key ≤ i < n →
                    is_Normal (settle (factory i)) = false) →
                 n ≤ invocations w key) as Hnone.
    { intros n Hfail. destruct (decide (n ≤ invocations w key)) as [|Hn]; [done|].
      specialize (Hfail (invocations w key)). rewrite Hok in Hfail.
      discriminate Hfail. lia. }
    destruct (providerCache s !! key) as [p|].
    + destruct H as (factory' & Hf' & Hlt & Hlast & Hall).
      assert (factory' = factory) as -> by congruence.
      specialize (Hnone _ Hall). lia.
    + specialize (Hnone _ (λ i, H factory i Hf)). lia.
  - intros p s' Hget.
    destruct (providerCache s !! key) as [p'|] eqn:Hc.
    { rewrite (getProvider_hit _ _ _ p') in Hget by done. by simplify_eq. }
    rewrite (getProvider_miss _ _ _ factory) in Hget by done. cbn zeta in Hget.
    destruct (settle _); simplify_eq. cbn. by rewrite lookup_insert_eq.
  - intros p Hc. split; [by apply getProvider_hit|].
    intros more. by apply (generate_each_keeps_cached env config key more s p).
Qed.

(** ** Overlapping resolutions *)

(** A [getProvider] call that is not interrupted is its two stretches run
    back to back. *)
Lemma getProvider_two_steps config key s :
  let '(t1, s1) := resolution_step config (Called key) s in
  let '(t2, s2) := resolution_step config t1 s1 in
  (t2, s2) = ((Returned (getProvider config key s).1), (getProvider config key s).2).
Proof.
  cbn [resolution_step].
  destruct (providerCache s !! key) as [p|] eqn:Hc.
  { by rewrite (getProvider_hit _ _ _ p). }
  destruct (providers config !! key) as [factory|] eqn:Hf;
    [|by rewrite getProvider_unknown].
  rewrite (getProvider_miss _ _ _ factory) by done. cbn.
  by destruct (settle _).
Qed.

End Properties.

(** * The concrete client, property by property *)

Lemma calculateCosts_configured_witness :
  calculateCosts readme_config "smart" 1000000 500000 =
    Normal {| inputCostUsd := Some 2.5%float;
              outputCostUsd := Some 5%float;
              totalCostUsd := Some 7.5%float |}.
Proof.
  refine (proj2 (calculateCosts_configured readme_config "smart"
                   (mkModelEntry "openai" "gpt-4o" (Some (Costs.mk 2.5 10)))
                   (Costs.mk 2.5 10) 1000000 500000 _ _) _);
    reflexivity.
Defined.

Lemma generate_cost_fields_iff_costs_witness :
  (∃ response s',
     generate (demo_env 1200 None) readme_config
       (demo_params "smart" None (Some "checkout")) world = (Normal response, s')
     ∧ costFields (metadata response) =
         {| inputCostUsd := Some 2.5%float; outputCostUsd := Some 5%float;
            totalCostUsd := Some 7.5%float |})
  ∧ (∃ response s',
       generate (demo_env 1200 None) readme_config (demo_params "fast" None None) world
         = (Normal response, s')
       ∧ costFields (metadata response) =
           {| inputCostUsd := None; outputCostUsd := None; totalCostUsd := None |}).
Proof.
  split.
  - edestruct (proj2 (generate_cost_fields_iff_costs (demo_env 1200 None) readme_config
                 (demo_params "smart" None (Some "checkout")) world))
      as (response & s' & modelConfig & Hgen & Hmc & Hsome & _);
      [reflexivity|reflexivity|by right|].
    exists response, s'. split; [exact Hgen|].
    vm_compute in Hgen. by simplify_eq.
  - eexists _, _. split; [reflexivity|].
    edestruct (proj1 (generate_cost_fields_iff_costs (demo_env 1200 None) readme_config
                 (demo_params "fast" None None) world))
      as (modelConfig & Hm & _ & _ & _ & Hnone); [reflexivity|].
    apply Hnone. vm_compute in Hm. by simplify_eq.
Defined.

Lemma generate_data_witness :
  ∃ response s',
    generate (demo_env 1200 None) readme_config
      (demo_params "smart" (Some "recipe") None) world = (Normal response, s')
    ∧ data response = DataOutput "{}".
Proof.
  eexists _, _. split; [reflexivity|].
  edestruct (generate_data (demo_env 1200 None) readme_config
               (demo_params "smart" (Some "recipe") None) world)
    as (m & s1 & result & _ & Hr & _ & _ & Hout); [reflexivity|].
  rewrite Hout by (by eexists). cbn in Hr. by simplify_eq.
Defined.

Lemma generate_logs_iff_logKey_truthy_witness :
  console (generate (demo_env 1200 None) readme_config
             (demo_params "smart" None (Some "")) world).2 = [].
Proof.
  apply (proj1 (generate_logs_iff_logKey_truthy (demo_env 1200 None) readme_config
                  (demo_params "smart" None (Some "")) world)).
  reflexivity.
Defined.

Lemma generate_log_unguarded_witness :
  console (generate (demo_env 1200 None) readme_config
             (demo_params "smart" None (Some "checkout")) world).2
  = ["[LLM][checkout] _s using smart cost: $_ (in: $_, out: $_)"].
Proof.
  rewrite (generate_log_unguarded (demo_env 1200 None) readme_config
             (demo_params "smart" None (Some "checkout")) "checkout" world);
    [reflexivity|reflexivity|discriminate].
Defined.

(** C7: the claim fails when printing fails.  The SDK call has succeeded
    (it is counted), [console.log] throws, and [generate] fails with that
    exception; the same call without [logKey] succeeds. *)
Lemma log_failure_fails_generate :
  ∃ s',
    generate (demo_env 1200 (Some (mkError "Error" "write EPIPE"))) readme_config
      (demo_params "smart" None (Some "checkout")) world
    = (Throw (mkError "Error" "write EPIPE"), s')
    ∧ generateTextCalls s' = 1
    ∧ is_Normal (generate (demo_env 1200 (Some (mkError "Error" "write EPIPE")))
                   readme_config (demo_params "smart" None None) world).1 = true.
Proof. eexists. split_and!; reflexivity. Qed.

Lemma generate_responseTimeMs_witness :
  ∃ response s',
    generate (demo_env 1200 None) readme_config (demo_params "claude" None None) world
      = (Normal response, s')
    ∧ responseTimeMs (metadata response) = 1200%Z.
Proof.
  eexists _, _. split; [reflexivity|].
  edestruct (generate_responseTimeMs (demo_env 1200 None) readme_config
               (demo_params "claude" None None) world)
    as (m & s1 & _ & _ & Hdt & _); [reflexivity|].
  exact Hdt.
Defined.

(** C9: the claim's "non-negative" fails when the wall clock is set back
    during the SDK call: the call succeeds and reports [-100] ms. *)
Lemma responseTimeMs_negative :
  ∃ response s',
    generate (demo_env (-100) None) readme_config (demo_params "claude" None None) world
      = (Normal response, s')
    ∧ (responseTimeMs (metadata response) < 0)%Z.
Proof. eexists _, _. split; [reflexivity|]. cbn. lia. Qed.



Lemma generate_unknown_provider_witness :
  ∃ client s0,
    createAI (demo_env 1200 None) dangling_config world = (Normal client, s0)
    ∧ let s := (generate_each client [demo_params "claude" None None] s0).2 in
      ∃ e, client_generate client (demo_params "fast" None None) s = (Throw e, s)
           ∧ name e = "TypeError".
Proof.
  apply (generate_unknown_provider (demo_env 1200 None) dangling_config
           (demo_params "fast" None None)
           (mkModelEntry "openai" "gpt-4o-mini" None) world
           [demo_params "claude" None None]); reflexivity.
Defined.

(** C6: the claim fails on both branches: construction succeeds, and the
    first [generate] call for the model fails with a [TypeError], not a
    [ConfigError]. *)
Lemma unknown_provider_is_not_ConfigError :
  ∃ client s0,
    createAI (demo_env 1200 None) dangling_config world = (Normal client, s0)
    ∧ ∃ e s', client_generate client (demo_params "fast" None None) s0 = (Throw e, s')
              ∧ name e ≠ "ConfigError".
Proof.
  eexists _, _. split; [reflexivity|].
  eexists _, _. split; [reflexivity|]. cbn. discriminate.
Qed.

Lemma getProvider_factory_failure_witness :
  ∃ s',
    getProvider flaky_config "openai" world
      = (Throw (mkError "Error" "no API key"), s')
    ∧ providerCache s' = ∅
    ∧ invocations s' "openai" = 1
    ∧ invocations (generate (demo_env 1200 None) flaky_config
                     (demo_params "fast" None None) s').2 "openai" = 2.
Proof.
  destruct (getProvider_factory_failure (demo_env 1200 None) flaky_config "openai"
              (fails_once (mkError "Error" "no API key") openai)
              (mkError "Error" "no API key") world)
    as (s' & Hget & Hcache & Hn & Hnext); [reflexivity..|].
  exists s'. split_and!; [done..|].
  by apply (Hnext (demo_params "fast" None None)
              (mkModelEntry "openai" "gpt-4o-mini" None)).
Defined.

(** C5: the claim's error class fails: resolution fails with what the
    factory threw, a plain [Error], not a [ProviderInitError]. *)
Lemma factory_failure_is_not_ProviderInitError :
  ∃ e s',
    getProvider flaky_config "openai" world = (Throw e, s')
    ∧ name e ≠ "ProviderInitError".
Proof. eexists _, _. split; [reflexivity|]. cbn. discriminate. Qed.

Lemma provider_factory_fulfils_at_most_once_witness :
  ∃ client s0,
    createAI (demo_env 1200 None) flaky_config world = (Normal client, s0)
    ∧ fulfilled_between (fails_once (mkError "Error" "no API key") openai)
        (invocations world "openai")
        (invocations
           (generate_each client
              [demo_params "fast" None None; demo_params "smart" None None;
               demo_params "claude" None None; demo_params "fast" None None] s0).2
           "openai") ≤ 1.
Proof.
  destruct (provider_factory_fulfils_at_most_once (demo_env 1200 None) flaky_config
              world
              [demo_params "fast" None None; demo_params "smart" None None;
               demo_params "claude" None None; demo_params "fast" None None]
              "openai" (fails_once (mkError "Error" "no API key") openai))
    as (client & s0 & Hclient & Honce & _); [reflexivity|].
  by exists client, s0.
Defined.

(** C1: the claim's "invoked at most once" fails when the factory fails
    first: the first call throws, nothing is cached, and the second call
    invokes the factory again. *)
Lemma factory_invoked_again_after_failure :
  ∃ client s0,
    createAI (demo_env 1200 None) flaky_config world = (Normal client, s0)
    ∧ invocations s0 "openai" = 0
    ∧ invocations
        (generate_each client
           [demo_params "fast" None None; demo_params "fast" None None] s0).2
        "openai" = 2.
Proof. eexists _, _. split_and!; reflexivity. Qed.

(** Two resolutions of one key that overlap: both find the cache empty,
    both invoke the factory (which never fails here), and the provider is
    stored twice. *)
Lemma overlapping_resolutions_invoke_factory_twice :
  (run_resolutions readme_config [0; 1; 0; 1]
     [Called "openai"; Called "openai"] world).1
  = [Returned (Normal openai); Returned (Normal openai)]
  ∧ invocations
      (run_resolutions readme_config [0; 1; 0; 1]
         [Called "openai"; Called "openai"] world).2 "openai" = 2.
Proof. split; reflexivity. Qed.

(** Run one after the other, the second resolution is served from the
    cache. *)
Lemma sequential_resolutions_invoke_factory_once :
  invocations
    (run_resolutions readme_config [0; 0; 1; 1]
       [Called "openai"; Called "openai"] world).2 "openai" = 1.
Proof. reflexivity. Qed.

(** * Further properties of [generate] and [getProvider] *)

Section Further.
Context {LanguageModel Output Parsed : Type}.
Implicit Types (env : @Foreign LanguageModel Output Parsed).
Implicit Types (config : @Config LanguageModel).
Implicit Types (params : @GenerateParams Output).
Implicit Types (s : @State LanguageModel).
Implicit Types (key : string).
Implicit Types (factory : @ProviderFactory LanguageModel).
Implicit Types (p : @LanguageModelProvider LanguageModel).
Implicit Types (t : @Resolution LanguageModel).

(** ** What a successful resolution leaves behind *)

Lemma getProvider_Normal_cached config key s p s1 :
  getProvider config key s = (Normal p, s1) →
  providerCache s1 !! key = Some p.
Proof.
  intros Hget.
  destruct (providerCache s !! key) as [p'|] eqn:Hc.
  { rewrite (getProvider_hit _ _ _ p') in Hget by done. by simplify_eq. }
  destruct (providers config !! key) as [factory|] eqn:Hf.
  - rewrite (getProvider_miss _ _ _ factory) in Hget by done. cbn zeta in Hget.
    destruct (settle _); simplify_eq. cbn. by rewrite lookup_insert_eq.
  - by rewrite getProvider_unknown in Hget.
Qed.

Lemma getModel_Normal_inv config modelKey s (m : LanguageModel) s1 :
  getModel config modelKey s = (Normal m, s1) →
  ∃ modelConfig p,
    models config !! modelKey = Some modelConfig
    ∧ providerCache s1 !! provider modelConfig = Some p
    ∧ p (id modelConfig) = Normal m.
Proof.
  intros Hget.
  destruct (models config !! modelKey) as [modelConfig|] eqn:Hm;
    [|by rewrite getModel_unknown in Hget].
  rewrite (getModel_known _ _ modelConfig) in Hget by done.
  destruct (getProvider config (provider modelConfig) s) as [[p|e] s'] eqn:Hp;
    simplify_eq.
  exists modelConfig, p. split_and!; [done| |done].
  by eapply getProvider_Normal_cached.
Qed.

(** ** Token counts *)

(** X1: the token counts of the metadata are those the SDK reported, each 0
    when the SDK reported none, and the cost fields are [calculateCosts] of
    exactly these two counts. *)
Theorem generate_reports_usage env config params s response s' :
  generate env config params s = (Normal response, s') →
  ∃ m s1 result,
    getModel config (model params) s = (Normal m, s1)
    ∧ settle (generateText env (generateTextCalls s) (generateText_args params m))
      = Normal result
    ∧ inputTokens (metadata response)
      = default 0%float (ai.usage result ≫= ai.inputTokens)
    ∧ outputTokens (metadata response)
      = default 0%float (ai.usage result ≫= ai.outputTokens)
    ∧ (ai.usage result = None →
       inputTokens (metadata response) = 0%float
       ∧ outputTokens (metadata response) = 0%float)
    ∧ calculateCosts config (model params) (inputTokens (metadata response))
        (outputTokens (metadata response))
      = Normal (costFields (metadata response)).
Proof.
  intros (m & s1 & result & c & Hm & Hr & Hc & ->)%generate_Normal_inv.
  exists m, s1, result.
  destruct (getModel_frame config (model params) s) as [_ Hcalls].
  rewrite Hm in Hcalls. cbn in Hcalls. rewrite <- Hcalls.
  split_and!; try done. cbn. by intros ->.
Qed.

(** ** Failures of the SDK *)

(** X2: when the SDK call fails, [generate] fails with the SDK's exception,
    unchanged; nothing is logged, one SDK call has been made, and the
    provider resolved for the call stays in the cache. *)
Theorem generate_sdk_failure env config params s (m : LanguageModel) s1 e :
  getModel config (model params) s = (Normal m, s1) →
  settle (generateText env (generateTextCalls s) (generateText_args params m))
    = Throw e →
  ∃ s',
    generate env config params s = (Throw e, s')
    ∧ console s' = console s
    ∧ generateTextCalls s' = S (generateTextCalls s)
    ∧ providerCache s' = providerCache s1
    ∧ ∃ modelConfig p,
        models config !! model params = Some modelConfig
        ∧ providerCache s' !! provider modelConfig = Some p.
Proof.
  intros Hm Hr.
  destruct (getModel_frame config (model params) s) as [Hconsole Hcalls].
  rewrite Hm in Hconsole, Hcalls. cbn in Hconsole, Hcalls.
  rewrite generate_unfold, Hm. cbn zeta. rewrite Hcalls, Hr.
  eexists. split; [done|]. cbn. split_and!; [done|by rewrite Hcalls|done|].
  apply getModel_Normal_inv in Hm as (modelConfig & p & ? & ? & _).
  by exists modelConfig, p.
Qed.

(** ** What the SDK is asked *)

(** X3: a successful call asked the SDK for the model handle that the
    provider now cached under the entry's provider key returned for the
    entry's [id], and passed [prompt], [system], [temperature],
    [maxOutputTokens] and [output] on as they were given. *)
Theorem generate_sdk_arguments env config params s response s' :
  generate env config params s = (Normal response, s') →
  ∃ modelConfig p (m : LanguageModel) result,
    models config !! model params = Some modelConfig
    ∧ providerCache s' !! provider modelConfig = Some p
    ∧ p (id modelConfig) = Normal m
    ∧ settle (generateText env (generateTextCalls s)
                {| ai.model := m;
                   ai.prompt := prompt params;
                   ai.system := system params;
                   ai.temperature := temperature params;
                   ai.maxOutputTokens := maxOutputTokens params;
                   ai.experimental_output := output params |})
      = Normal result
    ∧ data response = if truthy_object (output params)
                      then DataOutput (ai.output result)
                      else DataText (ai.text result).
Proof.
  intros Hgen.
  destruct (generate_resolution_state env config params s) as [Hcache _].
  rewrite Hgen in Hcache. cbn in Hcache.
  apply generate_Normal_inv in Hgen as (m & s1 & result & c & Hm & Hr & _ & ->).
  destruct (getModel_frame config (model params) s) as [_ Hcalls].
  rewrite Hm in Hcalls, Hcache. cbn in Hcalls, Hcache.
  apply getModel_Normal_inv in Hm as (modelConfig & p & Hmc & Hp & Hcall).
  exists modelConfig, p, m, result. rewrite Hcache, <- Hcalls.
  by split_and!.
Qed.

(** ** One SDK call per [generate], at most *)

Lemma generate_sdk_call_count env config params s :
  generateTextCalls s ≤ generateTextCalls (generate env config params s).2
  ∧ generateTextCalls (generate env config params s).2 ≤ S (generateTextCalls s)
  ∧ (is_Normal (generate env config params s).1 = true →
     generateTextCalls (generate env config params s).2 = S (generateTextCalls s)).
Proof.
  destruct (getModel_frame config (model params) s) as [_ Hcalls].
  rewrite generate_unfold.
  destruct (getModel config (model params) s) as [[m|e] s1]; cbn in Hcalls;
    [|cbn; rewrite Hcalls; split_and!; [lia|lia|done]].
  cbn zeta. destruct (settle _) as [result|e];
    [|cbn; rewrite Hcalls; split_and!; [lia|lia|done]].
  destruct (calculateCosts _ _ _ _) as [c|e];
    [|cbn; rewrite Hcalls; split_and!; [lia|lia|done]].
  destruct (truthy_string _); [destruct (console_log _ _)|];
    cbn; rewrite Hcalls; split_and!; (lia || done).
Qed.

(** X4: [generate] never retries.  Over any sequence of calls, every call
    makes at most one SDK call and every call that returns a response made
    exactly one: the number of SDK calls lies between the number of
    responses and the number of [generate] calls. *)
Theorem generate_each_sdk_calls env config w calls :
  ∃ client s0,
    createAI env config w = (Normal client, s0)
    ∧ let results := (generate_each client calls s0).1 in
      let s := (generate_each client calls s0).2 in
      generateTextCalls w + length (filter (λ r, is_Normal r = true) results)
        ≤ generateTextCalls s
      ∧ generateTextCalls s ≤ generateTextCalls w + length calls.
Proof.
  eexists _, _. split; [done|]. cbn zeta.
  change (generateTextCalls w) with (generateTextCalls (cache_new w)).
  generalize (cache_new w). clear w.
  induction calls as [|params calls IH]; intros s; [cbn; lia|].
  cbn [generate_each client_generate].
  pose proof (generate_sdk_call_count env config params s) as (Hlo & Hhi & Hok).
  destruct (generate env config params s) as [r s1]. cbn in Hlo, Hhi, Hok.
  specialize (IH s1). destruct (generate_each _ calls s1) as [rs s2].
  cbn [fst snd] in IH |- *. rewrite filter_cons.
  destruct r as [response|e]; cbn [is_Normal] in *; case_decide; try done;
    cbn [length].
  - specialize (Hok eq_refl). lia.
  - lia.
Qed.

(** ** Providers are loaded lazily *)

(** The counter of one key after a miss on another key. *)
Ltac invocations_unmoved :=
  rewrite ?invocations_cache_set, ?invocations_clock_moved,
    invocations_factory_invoked; by case_decide.

Lemma getProvider_other_key config key key' s :
  key' ≠ key →
  providerCache (getProvider config key' s).2 !! key = providerCache s !! key
  ∧ invocations (getProvider config key' s).2 key = invocations s key.
Proof.
  intros Hne.
  destruct (providerCache s !! key') as [p'|] eqn:Hc.
  { by rewrite (getProvider_hit _ _ _ p'). }
  destruct (providers config !! key') as [factory|] eqn:Hf;
    [|by rewrite getProvider_unknown].
  rewrite (getProvider_miss _ _ _ factory) by done. cbn zeta.
  destruct (settle _) as [p'|e]; cbn.
  - rewrite lookup_insert_ne by done. split; [done|]. invocations_unmoved.
  - split; [done|]. invocations_unmoved.
Qed.

Lemma generate_other_key env config params key s :
  (∀ modelConfig, models config !! model params = Some modelConfig →
                  provider modelConfig ≠ key) →
  providerCache (generate env config params s).2 !! key = providerCache s !! key
  ∧ invocations (generate env config params s).2 key = invocations s key.
Proof.
  intros Hother.
  destruct (generate_resolution_state env config params s) as [Hc Hf].
  unfold invocations. rewrite Hc, Hf, getModel_resolution_state.
  destruct (models config !! model params) as [modelConfig|]; [|done].
  by apply getProvider_other_key, Hother.
Qed.

(** X5: a provider is loaded only for a model that uses it.  [createAI]
    invokes no factory, and after any sequence of calls none of which is for
    a model of provider [key], the factory of [key] has not been invoked and
    nothing is cached under [key]. *)
Theorem unused_provider_never_loaded env config w calls key :
  (∀ params modelConfig,
     params ∈ calls →
     models config !! model params = Some modelConfig →
     provider modelConfig ≠ key) →
  ∃ client s0,
    createAI env config w = (Normal client, s0)
    ∧ invocations s0 key = invocations w key
    ∧ let s := (generate_each client calls s0).2 in
      invocations s key = invocations w key
      ∧ providerCache s !! key = None.
Proof.
  intros Hother. eexists _, _. split; [done|]. split; [done|]. cbn zeta.
  change (invocations w key) with (invocations (cache_new w) key).
  assert (providerCache (cache_new w) !! key = None) as Hnone by apply lookup_empty.
  revert Hnone. generalize (cache_new w). clear w.
  induction calls as [|params calls IH]; intros s Hnone; [done|].
  cbn [generate_each client_generate].
  destruct (generate_other_key env config params key s) as [Hc Hn].
  { intros modelConfig. apply Hother. apply elem_of_cons. by left. }
  destruct (generate env config params s) as [r s1]. cbn in Hc, Hn.
  destruct (IH (λ params' mc Hin, Hother params' mc (proj2 (elem_of_cons _ _ _) (or_intror Hin))) s1)
    as [IHn IHc]; [congruence|].
  destruct (generate_each _ calls s1) as [rs s2]. cbn in *.
  split; congruence.
Qed.

(** ** Where a failure of [generate] comes from *)

(** X6: an exception of [generate] is the exception of one of three steps:
    resolving the model ([getModel]; then no SDK call has been made and
    nothing is logged), the SDK call (then nothing is logged), or
    [console.log] on a call with a non-empty [logKey], after the SDK call
    succeeded.  Computing the costs and building the response never fail a
    call. *)
Theorem generate_failure_origin env config params s e s' :
  generate env config params s = (Throw e, s') →
  (getModel config (model params) s = (Throw e, s')
   ∧ generateTextCalls s' = generateTextCalls s
   ∧ console s' = console s)
  ∨ (∃ m s1,
       getModel config (model params) s = (Normal m, s1)
       ∧ settle (generateText env (generateTextCalls s) (generateText_args params m))
         = Throw e
       ∧ console s' = console s)
  ∨ (∃ m s1 result key line,
       getModel config (model params) s = (Normal m, s1)
       ∧ settle (generateText env (generateTextCalls s) (generateText_args params m))
         = Normal result
       ∧ logKey params = Some key ∧ key ≠ ""
       ∧ console_log env line = Some e).
Proof.
  rewrite generate_unfold.
  destruct (getModel_frame config (model params) s) as [Hconsole Hcalls].
  destruct (getModel config (model params) s) as [[m|e1] s1] eqn:Hget;
    cbn in Hconsole, Hcalls.
  - (* resolved: the SDK or the console *)
    cbn zeta. rewrite Hcalls.
    destruct (settle _) as [result|e2] eqn:Hr.
    + apply getModel_Normal_inv in Hget as (modelConfig & p & Hmc & _ & _).
      unfold calculateCosts. rewrite Hmc.
      destruct (logKey params) as [key|] eqn:Hkey;
        [|by destruct (costs modelConfig)].
      cbn [truthy_string]. destruct (String.eqb_spec key "") as [->|Hne];
        [by destruct (costs modelConfig)|].
      intros Hgen. do 2 right. exists m, s1, result, key.
      destruct (costs modelConfig); cbn in Hgen;
        (destruct (console_log env _) eqn:Hlog; [|done]); simplify_eq;
        by eexists.
    + intros [= -> <-]. right. left. exists m, s1. by split_and!.
  - (* not resolved *)
    intros [= -> ->]. by left.
Qed.

(** ** The text of the log line *)

(** X7: a call with a non-empty [logKey] that returns has printed exactly
    one line: the key, the response time of the metadata in seconds, the
    alias, and, only for a model with [costs], the three cost fields of the
    metadata formatted as currency. *)
Theorem generate_log_line env config params key s response s' :
  logKey params = Some key →
  key ≠ "" →
  generate env config params s = (Normal response, s') →
  ∃ modelConfig,
    models config !! model params = Some modelConfig
    ∧ console s' = console s ++
        ["[LLM][" +:+ key +:+ "] "
         +:+ seconds_toFixed2 env (responseTimeMs (metadata response))
         +:+ "s using " +:+ model params
         +:+ match costs modelConfig with
             | None => ""
             | Some _ =>
                 " cost: "
                 +:+ costFormatter_format env
                       (default nan (totalCostUsd (costFields (metadata response))))
                 +:+ " (in: "
                 +:+ costFormatter_format env
                       (default nan (inputCostUsd (costFields (metadata response))))
                 +:+ ", out: "
                 +:+ costFormatter_format env
                       (default nan (outputCostUsd (costFields (metadata response))))
                 +:+ ")"
             end].
Proof.
  intros Hkey Hne. rewrite generate_unfold.
  destruct (getModel_frame config (model params) s) as [Hconsole _].
  destruct (getModel config (model params) s) as [[m|e1] s1] eqn:Hget; [|done].
  cbn in Hconsole. cbn zeta.
  destruct (settle _) as [result|e2]; [|done].
  apply getModel_Normal_inv in Hget as (modelConfig & p & Hmc & _ & _).
  unfold calculateCosts. rewrite Hmc, Hkey. cbn [truthy_string].
  destruct (String.eqb_spec key "") as [?|_]; [done|]. cbn [negb default].
  intros Hgen. exists modelConfig. split; [done|].
  destruct (costs modelConfig) as [c|]; cbn in Hgen;
    (destruct (console_log env _); [done|]); simplify_eq; cbn;
    by rewrite Hconsole.
Qed.

(** ** When [generate] returns *)

(** X10: [generate] returns a response whenever the alias is configured,
    its provider is cached or the factory yields one, the provider returns a
    model handle for the entry's [id], the SDK call for that handle succeeds
    and [console.log] does not throw; the response carries the SDK's result
    and the time the SDK call took. *)
Theorem generate_returns env config params s modelConfig p (m : LanguageModel)
    (result : ai.GenerateTextResult Parsed) :
  models config !! model params = Some modelConfig →
  (providerCache s !! provider modelConfig = Some p
   ∨ ∃ factory,
       providerCache s !! provider modelConfig = None
       ∧ providers config !! provider modelConfig = Some factory
       ∧ settle (factory (invocations s (provider modelConfig))) = Normal p) →
  p (id modelConfig) = Normal m →
  settle (generateText env (generateTextCalls s) (generateText_args params m))
    = Normal result →
  (∀ line, console_log env line = None) →
  ∃ response s',
    generate env config params s = (Normal response, s')
    ∧ data response = (if truthy_object (output params)
                       then DataOutput (ai.output result)
                       else DataText (ai.text result))
    ∧ responseTimeMs (metadata response)
      = elapsed (generateText env (generateTextCalls s) (generateText_args params m))
    ∧ providerCache s' !! provider modelConfig = Some p.
Proof.
  intros Hmc Hp Hcall Hr Hlog.
  assert (∃ s1, getModel config (model params) s = (Normal m, s1)
                ∧ providerCache s1 !! provider modelConfig = Some p) as (s1 & Hget & Hc).
  { rewrite (getModel_known _ _ modelConfig) by done.
    destruct Hp as [Hhit|(factory & Hmiss & Hf & Hok)].
    - rewrite (getProvider_hit _ _ _ p), Hcall by done. by eexists.
    - rewrite (getProvider_miss _ _ _ factory) by done. cbn zeta.
      rewrite Hok, Hcall.
      eexists. split; [done|]. cbn. by rewrite lookup_insert_eq. }
  destruct (getModel_frame config (model params) s) as [_ Hcalls].
  rewrite Hget in Hcalls. cbn in Hcalls.
  rewrite generate_unfold, Hget. cbn zeta. rewrite Hcalls, Hr.
  unfold calculateCosts. rewrite Hmc.
  destruct (costs modelConfig);
    (destruct (truthy_string _); [rewrite Hlog|]);
    eexists _, _; (split_and!; [done|done|cbn; lia|done]).
Qed.

(** ** Failures of the provider *)

(** X12: when the provider throws on the entry's [id], [generate] fails
    with that exception, unchanged, before the clock is read: no SDK call is
    made and nothing is logged.  The provider itself stays in the cache, so
    the next call does not invoke the factory again. *)
Theorem generate_provider_call_failure env config params s modelConfig p s1 e :
  models config !! model params = Some modelConfig →
  getProvider config (provider modelConfig) s = (Normal p, s1) →
  p (id modelConfig) = Throw e →
  generate env config params s = (Throw e, s1)
  ∧ generateTextCalls s1 = generateTextCalls s
  ∧ console s1 = console s
  ∧ providerCache s1 !! provider modelConfig = Some p
  ∧ ∀ params',
      model params' = model params →
      invocations (generate env config params' s1).2 (provider modelConfig)
      = invocations s1 (provider modelConfig).
Proof.
  intros Hmc Hget Hcall.
  destruct (getProvider_frame config (provider modelConfig) s) as [Hconsole Hcalls].
  rewrite Hget in Hconsole, Hcalls. cbn in Hconsole, Hcalls.
  pose proof (getProvider_Normal_cached _ _ _ _ _ Hget) as Hcached.
  rewrite generate_unfold, (getModel_known _ _ modelConfig), Hget, Hcall by done.
  split_and!; [done..|].
  intros params' Hsame.
  destruct (generate_resolution_state env config params' s1) as [_ Hf].
  rewrite (invocations_ext _ _ _ Hf), getModel_resolution_state, Hsame, Hmc.
  by rewrite (getProvider_hit _ _ _ p).
Qed.

(** ** Overlapping resolutions, whatever the schedule *)

Lemma resolution_step_invocations config t s key :
  invocations s key ≤ invocations (resolution_step config t s).2 key.
Proof.
  destruct t as [k|k r|r]; cbn [resolution_step].
  - destruct (providerCache s !! k); [done|].
    destruct (providers config !! k); [|done]. cbn [snd].
    rewrite invocations_factory_invoked. case_decide; subst; lia.
  - by destruct (settle r).
  - done.
Qed.

Lemma resolution_sound_mono config s s' t :
  (∀ key, invocations s key ≤ invocations s' key) →
  resolution_sound config s t → resolution_sound config s' t.
Proof.
  intros Hle. destruct t as [k|k r|r]; [done| |done].
  intros (factory & i & Hf & Hi & ->). exists factory, i.
  split_and!; [done| |done]. specialize (Hle k). lia.
Qed.

Lemma cache_sound_mono config s s' :
  providerCache s' = providerCache s →
  (∀ key, invocations s key ≤ invocations s' key) →
  cache_sound config s → cache_sound config s'.
Proof.
  intros Hc Hle Hsound key p Hp. rewrite Hc in Hp.
  destruct (Hsound key p Hp) as (factory & i & Hf & Hi & Hr).
  exists factory, i. split_and!; [done| |done]. specialize (Hle key). lia.
Qed.

(** One stretch of one call keeps the cache sound, and leaves the call in a
    sound state. *)
Lemma resolution_step_sound config t s :
  cache_sound config s →
  resolution_sound config s t →
  cache_sound config (resolution_step config t s).2
  ∧ resolution_sound config (resolution_step config t s).2
      (resolution_step config t s).1.
Proof.
  intros Hcache Ht. destruct t as [k|k r|r]; cbn [resolution_step].
  - destruct (providerCache s !! k) as [p|]; [done|].
    destruct (providers config !! k) as [factory|] eqn:Hf; [|done].
    cbn [fst snd]. split.
    + apply (cache_sound_mono config s); [done| |done].
      intros key. rewrite invocations_factory_invoked. case_decide; subst; lia.
    + exists factory, (invocations s k). split_and!; [done| |done].
      rewrite invocations_factory_invoked. case_decide; [lia|done].
  - destruct Ht as (factory & i & Hf & Hi & ->).
    destruct (settle (factory i)) as [p|e] eqn:Hr; cbn [fst snd].
    + split; [|done]. intros key p' Hp'. cbn in Hp'.
      rewrite lookup_insert in Hp'. case_decide as Hk.
      * simplify_eq. by exists factory, i.
      * by apply Hcache.
    + split; [|done]. by apply (cache_sound_mono config s).
  - done.
Qed.

(** X8: however the stretches of overlapping [getProvider] calls are
    interleaved, the cache only ever holds, under a key, a provider that an
    invocation of that key's factory yielded: a call stores what it awaited,
    and nothing is stored before the [await] has returned. *)
Theorem overlapping_resolutions_cache_sound config schedule
    (tasks : list (@Resolution LanguageModel)) s :
  cache_sound config s →
  Forall (resolution_sound config s) tasks →
  cache_sound config (run_resolutions config schedule tasks s).2
  ∧ Forall (resolution_sound config (run_resolutions config schedule tasks s).2)
      (run_resolutions config schedule tasks s).1.
Proof.
  revert tasks s. induction schedule as [|i schedule IH]; intros tasks s Hs Hts;
    [done|].
  cbn [run_resolutions]. destruct (tasks !! i) as [t|] eqn:Hi; [|by apply IH].
  pose proof (resolution_step_sound config t s Hs) as Hstep.
  pose proof (resolution_step_invocations config t s) as Hle.
  destruct (resolution_step config t s) as [t' s1]. cbn [fst snd] in Hstep, Hle.
  destruct Hstep as [Hs1 Ht']; [by eapply Forall_lookup_1|].
  apply IH; [done|]. apply Forall_insert; [|done].
  eapply Forall_impl; [done|]. intros t0. by apply resolution_sound_mono.
Qed.

Lemma pending_insert key (tasks : list (@Resolution LanguageModel)) (i : nat) t t' :
  tasks !! i = Some t →
  pending key (<[i := t']> tasks) + (if is_Called key t then 1 else 0)
  = pending key tasks + (if is_Called key t' then 1 else 0).
Proof.
  unfold pending. revert i. induction tasks as [|t0 tasks IH]; intros i Hi; [done|].
  destruct i as [|i].
  - cbn in Hi. simplify_eq. cbn [insert list_insert]. rewrite !filter_cons.
    destruct (is_Called key t), (is_Called key t');
      repeat case_decide; try congruence; cbn [length]; lia.
  - cbn in Hi. specialize (IH i Hi).
    change (<[S i := t']> (t0 :: tasks)) with (t0 :: <[i := t']> tasks).
    rewrite !filter_cons.
    case_decide; cbn [length]; [by rewrite !Nat.add_succ_l, IH | exact IH].
Qed.

Lemma resolution_step_pending config t s key :
  invocations (resolution_step config t s).2 key
  + (if is_Called key (resolution_step config t s).1 then 1 else 0)
  ≤ invocations s key + (if is_Called key t then 1 else 0).
Proof.
  destruct t as [k|k r|r]; cbn [resolution_step].
  - destruct (providerCache s !! k); [cbn [fst snd is_Called]; lia|].
    destruct (providers config !! k); [|cbn [fst snd is_Called]; lia].
    cbn [fst snd is_Called].
    rewrite invocations_factory_invoked.
    destruct (String.eqb_spec k key); case_decide; try congruence; subst; lia.
  - destruct (settle r); cbn [fst snd is_Called];
      rewrite ?invocations_cache_set, ?invocations_clock_moved; lia.
  - cbn [fst snd]. lia.
Qed.

(** X9: however the calls are interleaved, each [getProvider] call invokes
    its factory at most once: the factory of a key has been invoked at most
    as many more times as calls for that key were waiting to start. *)
Theorem overlapping_resolutions_invocations config schedule
    (tasks : list (@Resolution LanguageModel)) s key :
  invocations (run_resolutions config schedule tasks s).2 key
  + pending key (run_resolutions config schedule tasks s).1
  ≤ invocations s key + pending key tasks.
Proof.
  revert tasks s. induction schedule as [|i schedule IH]; intros tasks s; [done|].
  cbn [run_resolutions]. destruct (tasks !! i) as [t|] eqn:Hi; [|by apply IH].
  pose proof (resolution_step_pending config t s key) as Hstep.
  destruct (resolution_step config t s) as [t' s1]. cbn [fst snd] in Hstep.
  specialize (IH (<[i := t']> tasks) s1).
  pose proof (pending_insert key tasks i t t' Hi). lia.
Qed.

End Further.

(** * The concrete client, further properties *)

Lemma generate_reports_usage_witness :
  ∃ response s',
    generate (demo_env 1200 None) readme_config (demo_params "smart" None None) world
      = (Normal response, s')
    ∧ inputTokens (metadata response) = 1000000%float
    ∧ outputTokens (metadata response) = 500000%float.
Proof.
  eexists _, _. split; [reflexivity|].
  edestruct (generate_reports_usage (demo_env 1200 None) readme_config
               (demo_params "smart" None None) world)
    as (m & s1 & result & _ & Hr & Hin & Hout & _); [reflexivity|].
  cbn in Hr. simplify_eq. by rewrite Hin, Hout.
Defined.

(** An SDK that is out of quota: every call rejects after 80 ms. *)
Definition failing_sdk : @Foreign string string string :=
  {| generateText := λ _ _, mkSettled 80 (Throw (mkError "APICallError" "quota exceeded"));
     console_log := λ _, None;
     costFormatter_format := λ _, "$_";
     seconds_toFixed2 := λ _, "_" |}.

Lemma generate_sdk_failure_witness :
  ∃ s',
    generate failing_sdk readme_config (demo_params "smart" None (Some "checkout")) world
      = (Throw (mkError "APICallError" "quota exceeded"), s')
    ∧ console s' = []
    ∧ generateTextCalls s' = 1
    ∧ is_Some (providerCache s' !! "openai").
Proof.
  edestruct (generate_sdk_failure failing_sdk readme_config
               (demo_params "smart" None (Some "checkout")) world)
    as (s' & Hgen & Hconsole & Hcalls & _ & modelConfig & p & Hmc & Hp);
    [reflexivity..|].
  exists s'. split_and!; [done..|]. vm_compute in Hmc. simplify_eq. by eexists.
Defined.

Lemma generate_sdk_arguments_witness :
  ∃ response s',
    generate (demo_env 1200 None) readme_config (demo_params "claude" None None) world
      = (Normal response, s')
    ∧ data response = DataText "Hello from anthropic/claude-sonnet-4-20250514".
Proof.
  eexists _, _. split; [reflexivity|].
  edestruct (generate_sdk_arguments (demo_env 1200 None) readme_config
               (demo_params "claude" None None) world)
    as (modelConfig & p & m & result & Hmc & Hp & Hcall & Hr & ->); [reflexivity|].
  vm_compute in Hmc. simplify_eq. cbn in Hp, Hr.
  rewrite lookup_insert_eq in Hp. simplify_eq.
  unfold anthropic in Hcall. simplify_eq. reflexivity.
Defined.

Lemma unused_provider_never_loaded_witness :
  ∃ client s0,
    createAI (demo_env 1200 None) readme_config world = (Normal client, s0)
    ∧ invocations s0 "anthropic" = invocations world "anthropic"
    ∧ let s := (generate_each client
                  [demo_params "fast" None None; demo_params "smart" None None] s0).2 in
      invocations s "anthropic" = invocations world "anthropic"
      ∧ providerCache s !! "anthropic" = None.
Proof.
  apply (unused_provider_never_loaded (demo_env 1200 None) readme_config world
           [demo_params "fast" None None; demo_params "smart" None None] "anthropic").
  intros params modelConfig Hin Hmc.
  apply elem_of_cons in Hin as [->|Hin]; [vm_compute in Hmc; by simplify_eq|].
  apply elem_of_cons in Hin as [->|Hin]; [vm_compute in Hmc; by simplify_eq|].
  by apply elem_of_nil in Hin.
Defined.

Lemma generate_failure_origin_witness :
  ∃ e s',
    generate (demo_env 1200 None) readme_config
      (demo_params "unknown-alias" None None) world = (Throw e, s')
    ∧ getModel readme_config "unknown-alias" world = (Throw e, s')
    ∧ generateTextCalls s' = 0.
Proof.
  eexists _, _. split; [reflexivity|].
  edestruct (generate_failure_origin (demo_env 1200 None) readme_config
               (demo_params "unknown-alias" None None) world)
    as [(Hget & Hcalls & _)|[(m & s1 & H & _)|(m & s1 & r & k & l & H & _)]];
    [reflexivity| |vm_compute in H; discriminate H..].
  by split.
Defined.

Lemma generate_log_line_witness :
  ∃ response s',
    generate (demo_env 1200 None) readme_config
      (demo_params "fast" None (Some "checkout")) world = (Normal response, s')
    ∧ console s' = ["[LLM][checkout] _s using fast"].
Proof.
  eexists _, _. split; [vm_compute; reflexivity|].
  edestruct (generate_log_line (demo_env 1200 None) readme_config
               (demo_params "fast" None (Some "checkout")) "checkout" world)
    as (modelConfig & Hmc & Hline);
    [(reflexivity || discriminate || (vm_compute; reflexivity))..|].
  vm_compute in Hmc. simplify_eq. exact Hline.
Defined.

Lemma generate_returns_witness :
  ∃ response s',
    generate (demo_env 1200 None) readme_config
      (demo_params "smart" (Some "recipe") (Some "checkout")) world
      = (Normal response, s')
    ∧ data response = DataOutput "{}"
    ∧ responseTimeMs (metadata response) = 1200%Z.
Proof.
  edestruct (generate_returns (demo_env 1200 None) readme_config
               (demo_params "smart" (Some "recipe") (Some "checkout")) world
               (mkModelEntry "openai" "gpt-4o" (Some (Costs.mk 2.5 10))) openai
               "openai/gpt-4o")
    as (response & s' & Hgen & Hdata & Htime & _).
  - reflexivity.
  - right. exists (ready 40 openai). split_and!; reflexivity.
  - reflexivity.
  - reflexivity.
  - reflexivity.
  - exists response, s'. by split_and!.
Defined.

(** A provider that knows one model only and throws for any other id. *)
Definition strict_openai : @LanguageModelProvider string :=
  λ modelId,
    if String.eqb modelId "gpt-4o" then Normal ("openai/" +:+ modelId)
    else Throw (mkError "NoSuchModelError" modelId).

Definition strict_config : @Config string :=
  {| providers := <["openai" := ready 40 strict_openai]> ∅;
     models := readme_models |}.

Lemma generate_provider_call_failure_witness :
  ∃ s1,
    generate (demo_env 1200 None) strict_config (demo_params "fast" None (Some "k"))
      world = (Throw (mkError "NoSuchModelError" "gpt-4o-mini"), s1)
    ∧ generateTextCalls s1 = 0
    ∧ console s1 = []
    ∧ invocations (generate (demo_env 1200 None) strict_config
                     (demo_params "fast" None None) s1).2 "openai"
      = invocations s1 "openai".
Proof.
  eexists.
  edestruct (generate_provider_call_failure (demo_env 1200 None) strict_config
               (demo_params "fast" None (Some "k")) world
               (mkModelEntry "openai" "gpt-4o-mini" None) strict_openai)
    as (Hgen & Hcalls & Hconsole & _ & Hnext); [reflexivity..|].
  split_and!; [exact Hgen|exact Hcalls|exact Hconsole|].
  by apply (Hnext (demo_params "fast" None None)).
Defined.

Lemma overlapping_resolutions_cache_sound_witness :
  cache_sound flaky_config
    (run_resolutions flaky_config [0; 1; 0; 2; 1; 2]
       [Called "openai"; Called "openai"; Called "anthropic"] world).2.
Proof.
  apply (overlapping_resolutions_cache_sound flaky_config [0; 1; 0; 2; 1; 2]
           [Called "openai"; Called "openai"; Called "anthropic"] world).
  - intros key p Hp. cbn in Hp. by rewrite lookup_empty in Hp.
  - by repeat constructor.
Defined.
